(** * SILType: the lowered-type handle of SIL

    A shallow embedding of [include/swift/SIL/SILType.h].  A [SILType] is an
    [llvm::PointerIntPair<Type, 2>]: one machine word holding the pointer to
    the uniqued Swift type together with two flag bits (address, loadable).
    Machine words are integers in [0, 2^64) and the bit operations of the
    header are written with [Z.land], [Z.lor], [Z.shiftl] and [Z.shiftr].
    A failed [assert] is a result of its own, carrying the message of the
    assertion that fired. *)

From Stdlib Require Import ZArith Lia Bool String Btauto.
From coqutil Require Import Z.bitblast.

Local Open Scope string_scope.
Local Open Scope Z_scope.

(** ** Assertions *)

Inductive Checked (A : Type) : Type :=
| Ok (a : A)
| AssertionFailed (msg : string).

Arguments Ok {A} a.
Arguments AssertionFailed {A} msg.

Definition bind {A B : Type} (c : Checked A) (k : A -> Checked B) : Checked B :=
  match c with
  | Ok a => k a
  | AssertionFailed msg => AssertionFailed msg
  end.

Notation "x <- c1 ;; c2" := (bind c1 (fun x => c2))
  (at level 61, c1 at next level, right associativity).
Notation "c1 ;;; c2" := (bind c1 (fun _ => c2))
  (at level 61, right associativity).

Definition assert (cond : bool) (msg : string) : Checked unit :=
  if cond then Ok tt else AssertionFailed msg.

(** ** Machine words *)

(** [uintptr_t] / [intptr_t] / [void*]: 64 bits. *)
Definition pointer_bits : Z := 64.
Definition to_uintptr (x : Z) : Z := x mod 2 ^ pointer_bits.

(** [unsigned]: 32 bits. *)
Definition to_unsigned (x : Z) : Z := x mod 2 ^ 32.

Definition is_word (x : Z) : Prop := 0 <= x < 2 ^ pointer_bits.

(** ** llvm::PointerIntPair<Type, 2> *)

Module PointerIntPair.

(** Modelled from the spec: [llvm/ADT/PointerIntPair.h] and the
    [PointerLikeTypeTraits<swift::Type>] of [swift/AST/Type.h] are not among
    the sources.  The packed layout takes 2 low bits of the type reference
    for the flags and leaves 1 spare low bit (the header advertises
    [NumLowBitsAvailable = 1] for [SILType]), so a [Type] pointer has 3 low
    bits available.  The pair is one [intptr_t]; the flag field sits in the
    highest of the available low bits, the pointer in the bits above. *)
Definition PtrNumLowBitsAvailable : Z := 3.
Definition IntBits : Z := 2.

(** [~(uintptr_t)(((intptr_t)1 << PtrTraits::NumLowBitsAvailable)-1)] *)
Definition PointerBitMask : Z :=
  to_uintptr (Z.lnot (Z.shiftl 1 PtrNumLowBitsAvailable - 1)).
(** The number of low bits reserved for other uses, and kept zero. *)
Definition IntShift : Z := PtrNumLowBitsAvailable - IntBits.
Definition IntMask : Z := Z.shiftl 1 IntBits - 1.

Record t : Type := { Value : Z }.

(** [PointerIntPair() : Value(0)] *)
Definition empty : t := {| Value := 0 |}.

Definition getPointer (P : t) : Z := Z.land (Value P) PointerBitMask.

Definition getInt (P : t) : Z :=
  Z.land (Z.shiftr (Value P) IntShift) IntMask.

(** [PointerIntPair(PointerTy PtrVal, IntType IntVal)], that is
    [setPointerAndInt] behind the size check. *)
Definition make (PtrVal IntVal : Z) : Checked t :=
  assert (IntBits <=? PtrNumLowBitsAvailable)
    "PointerIntPair formed with integer size too large for pointer" ;;;
  assert (Z.land PtrVal (Z.shiftl 1 PtrNumLowBitsAvailable - 1) =? 0)
    "Pointer is not sufficiently aligned" ;;;
  assert (IntVal <? Z.shiftl 1 IntBits)
    "Integer too large for field" ;;;
  Ok {| Value := Z.lor PtrVal (Z.shiftl IntVal IntShift) |}.

Definition getOpaqueValue (P : t) : Z := Value P.
Definition getFromOpaqueValue (V : Z) : t := {| Value := V |}.

(** [operator==] and [operator!=] compare [Value]. *)
Definition eqb (L R : t) : bool := Value L =? Value R.
Definition neqb (L R : t) : bool := negb (Value L =? Value R).

End PointerIntPair.

(** ** swift::Type and swift::CanType *)

(** A uniqued type object of the AST context: where it lives, and the one
    thing the header asks of it, [is<LValueType>()]. *)
Record TypeBase : Type := { addr : Z; is_LValueType : bool }.

(** A [CanType] wraps a [TypeBase*]; [None] is the null pointer. *)
Definition CanType : Type := option TypeBase.

Module Ty.

Definition getPointer (ty : CanType) : Z :=
  match ty with
  | Some t => addr t
  | None => 0
  end.

(** [explicit operator bool]: the pointer is not null. *)
Definition to_bool (ty : CanType) : bool := negb (getPointer ty =? 0).

(** [ty->is<LValueType>()], evaluated only behind [ty &&]. *)
Definition is_LValue (ty : CanType) : bool :=
  match ty with
  | Some t => is_LValueType t
  | None => false
  end.

End Ty.

(** ** swift::SILType *)

Module SILType.

Record t : Type := { value : PointerIntPair.t }.

Definition IsAddressFlag : Z := Z.shiftl 1 0.
Definition IsLoadableFlag : Z := Z.shiftl 1 1.

(** Private constructor [SILType(CanType ty, bool address, bool loadable)].
    The member initialiser runs before the assertions of the body. *)
Definition make (ty : CanType) (address loadable : bool) : Checked t :=
  v <- PointerIntPair.make (Ty.getPointer ty)
         (Z.lor (Z.shiftl (Z.b2z address) 0) (Z.shiftl (Z.b2z loadable) 1)) ;;
  assert (address || loadable)
    "SILType can't be the value of an address-only type" ;;;
  assert (negb (Ty.to_bool ty && Ty.is_LValue ty))
    "LValueTypes should be eliminated by SIL lowering" ;;;
  Ok {| value := v |}.

(** [SILType(Type ty, unsigned flags) : value(ty, flags)] *)
Definition of_flags (ty : Z) (flags : Z) : Checked t :=
  v <- PointerIntPair.make ty flags ;;
  Ok {| value := v |}.

(** [explicit SILType(ValueType value)] *)
Definition of_value (v : PointerIntPair.t) : t := {| value := v |}.

(** [SILType() = default] *)
Definition default : t := {| value := PointerIntPair.empty |}.

(** [Type::isNull] on the stored pointer. *)
Definition isNull (T : t) : bool :=
  PointerIntPair.getPointer (value T) =? 0.

(** [explicit operator bool]: [Type::operator bool] on the stored pointer. *)
Definition to_bool (T : t) : bool :=
  negb (PointerIntPair.getPointer (value T) =? 0).

Definition eqb (L R : t) : bool := PointerIntPair.eqb (value L) (value R).
Definition neqb (L R : t) : bool := PointerIntPair.neqb (value L) (value R).

Definition getAddressType (T : t) : Checked t :=
  of_flags (PointerIntPair.getPointer (value T))
           (Z.lor (PointerIntPair.getInt (value T)) IsAddressFlag).

Definition getObjectType (T : t) : Checked t :=
  assert (negb (Z.lor (PointerIntPair.getInt (value T)) IsLoadableFlag =? 0))
    "dereferencing an address-only address" ;;;
  of_flags (PointerIntPair.getPointer (value T))
           (Z.land (PointerIntPair.getInt (value T))
                   (to_unsigned (Z.lnot IsAddressFlag))).

(** The pointer of the referenced Swift type. *)
Definition getSwiftRValueType (T : t) : Z :=
  PointerIntPair.getPointer (value T).

Definition isAddress (T : t) : bool :=
  negb (Z.land (PointerIntPair.getInt (value T)) IsAddressFlag =? 0).
Definition isLoadable (T : t) : bool :=
  negb (Z.land (PointerIntPair.getInt (value T)) IsLoadableFlag =? 0).
Definition isAddressOnly (T : t) : bool := negb (isLoadable T).

(** Both overloads of [getPreLoweredType] wrap their argument in a
    [CanType] and call the private constructor. *)
Definition getPreLoweredType (ty : CanType) (address loadable : bool)
  : Checked t :=
  make ty address loadable.

Definition getOpaqueValue (T : t) : Z :=
  PointerIntPair.getOpaqueValue (value T).
Definition getFromOpaqueValue (P : Z) : t :=
  of_value (PointerIntPair.getFromOpaqueValue P).

(** [PointerLikeTypeTraits<SILType>::NumLowBitsAvailable] *)
Definition NumLowBitsAvailable : Z := 1.

End SILType.

(** ** llvm::PointerLikeTypeTraits<swift::SILType> *)

Module PointerLikeTypeTraits.

Definition getFromVoidPointer (P : Z) : SILType.t :=
  SILType.getFromOpaqueValue P.
Definition getAsVoidPointer (T : SILType.t) : Z := SILType.getOpaqueValue T.

End PointerLikeTypeTraits.

(** ** llvm::DenseMapInfo *)

Module PointerMapInfo.

(** Modelled from the spec: [DenseMapInfo<void*>] of [llvm/ADT/DenseMapInfo.h]
    is not among the sources.  Its two reserved sentinel values of the
    reference domain are [(uintptr_t)-1] and [(uintptr_t)-2], each shifted
    left by the 2 low bits available in a [void*]. *)
Definition NumLowBitsAvailable : Z := 2.
Definition getEmptyKey : Z :=
  to_uintptr (Z.shiftl (to_uintptr (-1)) NumLowBitsAvailable).
Definition getTombstoneKey : Z :=
  to_uintptr (Z.shiftl (to_uintptr (-2)) NumLowBitsAvailable).

End PointerMapInfo.

Module DenseMapInfo.

Definition getEmptyKey : SILType.t :=
  SILType.getFromOpaqueValue PointerMapInfo.getEmptyKey.
Definition getTombstoneKey : SILType.t :=
  SILType.getFromOpaqueValue PointerMapInfo.getTombstoneKey.


End DenseMapInfo.

(** ** Reachable handles and the representation invariant *)

(** A type object the AST context has allocated: a non-null 64-bit address. *)
Definition allocated (t : TypeBase) : Prop := 0 < addr t < 2 ^ pointer_bits.

(** The handles the header's operations produce: the default handle, the
    private constructor behind [getPreLoweredType], the two conversions. *)
Inductive reachable : SILType.t -> Prop :=
| reach_default : reachable SILType.default
| reach_null a l h :
    SILType.getPreLoweredType None a l = Ok h -> reachable h
| reach_type t a l h :
    allocated t ->
    SILType.getPreLoweredType (Some t) a l = Ok h -> reachable h
| reach_address h h' :
    reachable h -> SILType.getAddressType h = Ok h' -> reachable h'
| reach_object h h' :
    reachable h -> SILType.getObjectType h = Ok h' -> reachable h'.

(** The same handles, over the type objects of a given registry. *)
Inductive reachable_over (registry : TypeBase -> Prop) : SILType.t -> Prop :=
| over_default : reachable_over registry SILType.default
| over_null a l h :
    SILType.getPreLoweredType None a l = Ok h -> reachable_over registry h
| over_type t a l h :
    registry t ->
    SILType.getPreLoweredType (Some t) a l = Ok h -> reachable_over registry h
| over_address h h' :
    reachable_over registry h ->
    SILType.getAddressType h = Ok h' -> reachable_over registry h'
| over_object h h' :
    reachable_over registry h ->
    SILType.getObjectType h = Ok h' -> reachable_over registry h'.

(** The handles produced when [getObjectType] is only called as its comment
    allows, on handles of loadable types ("Invalid for address-only
    types"). *)
Inductive well_used : SILType.t -> Prop :=
| used_default : well_used SILType.default
| used_null a l h :
    SILType.getPreLoweredType None a l = Ok h -> well_used h
| used_type t a l h :
    allocated t ->
    SILType.getPreLoweredType (Some t) a l = Ok h -> well_used h
| used_address h h' :
    well_used h -> SILType.getAddressType h = Ok h' -> well_used h'
| used_object h h' :
    well_used h -> SILType.isLoadable h = true ->
    SILType.getObjectType h = Ok h' -> well_used h'.

(** The representation invariant of a [PointerIntPair]: the packed word is a
    machine word, and the [IntShift] low bits below the flag field, which the
    pair reserves for other uses, are kept zero. *)
Definition rep_ok (T : SILType.t) : Prop :=
  is_word (PointerIntPair.Value (SILType.value T)) /\
  Z.land (PointerIntPair.Value (SILType.value T))
         (Z.ones PointerIntPair.IntShift) = 0.

(** ** The handles of the scenarios *)

(** Two type objects of the AST context, neither an [LValueType]. *)
Definition Int32Type : TypeBase := {| addr := 4096; is_LValueType := false |}.
Definition OpaqueStructType : TypeBase :=
  {| addr := 8192; is_LValueType := false |}.

(** An [LValueType] object, which lowering should have eliminated. *)
Definition LValueOfInt32 : TypeBase := {| addr := 12288; is_LValueType := true |}.

(** The packed word of a pointer with the flags [address] and [loadable]. *)
Definition packed (p : Z) (address loadable : bool) : SILType.t :=
  {| SILType.value :=
       {| PointerIntPair.Value :=
            Z.lor p (Z.shiftl (Z.lor (Z.shiftl (Z.b2z address) 0)
                                     (Z.shiftl (Z.b2z loadable) 1))
                              PointerIntPair.IntShift) |} |}.

(** * Bit-level facts about the packed word *)

Lemma PointerBitMask_eq : PointerIntPair.PointerBitMask = Z.shiftl (Z.ones 61) 3.
Proof. reflexivity. Qed.

Lemma IntMask_eq : PointerIntPair.IntMask = Z.ones 2.
Proof. reflexivity. Qed.

Lemma IntShift_eq : PointerIntPair.IntShift = 1.
Proof. reflexivity. Qed.

Lemma AlignMask_eq : Z.shiftl 1 PointerIntPair.PtrNumLowBitsAvailable - 1 = Z.ones 3.
Proof. reflexivity. Qed.

Lemma small_bits i n : 0 <= i < 4 -> 2 <= n -> Z.testbit i n = false.
Proof.
  intros Hi Hn. destruct (Z.eq_dec i 0) as [->|Hz].
  - apply Z.testbit_0_l.
  - apply Z.bits_above_log2; [lia|].
    apply Z.log2_lt_pow2; [lia|].
    apply Z.lt_le_trans with (2 ^ 2); [simpl; lia|].
    apply Z.pow_le_mono_r; lia.
Qed.

Lemma word_bits p n : is_word p -> 64 <= n -> Z.testbit p n = false.
Proof.
  intros [H0 H1] Hn. destruct (Z.eq_dec p 0) as [->|Hz].
  - apply Z.testbit_0_l.
  - apply Z.bits_above_log2; [lia|].
    apply Z.log2_lt_pow2; [lia|].
    apply Z.lt_le_trans with (2 ^ 64); [exact H1|].
    apply Z.pow_le_mono_r; lia.
Qed.

Lemma aligned_bits p n :
  Z.land p (Z.ones 3) = 0 -> 0 <= n < 3 -> Z.testbit p n = false.
Proof.
  intros H Hn.
  assert (E : Z.testbit (Z.land p (Z.ones 3)) n = false)
    by (rewrite H; apply Z.testbit_0_l).
  rewrite Z.land_spec, Z.testbit_ones_nonneg in E by lia.
  replace (n <? 3) with true in E by (symmetry; apply Z.ltb_lt; lia).
  now rewrite andb_true_r in E.
Qed.

Lemma spare_bit v : Z.land v (Z.ones 1) = 0 -> Z.testbit v 0 = false.
Proof.
  intros H.
  assert (E : Z.testbit (Z.land v (Z.ones 1)) 0 = false)
    by (rewrite H; apply Z.testbit_0_l).
  now rewrite Z.land_spec, andb_true_r in E.
Qed.

(** After [Z.bitblast] has split on the position of the bit, each case is
    closed by what is known of the operands: no number has a
    bit at a negative position, a flag value has none above 1, an aligned
    pointer none below 3, a word none above 63. *)
Ltac known_bits :=
  subst;
  repeat match goal with
  | |- context [Z.testbit ?p ?n] =>
      first [ rewrite (Z.testbit_neg_r p n) by lia
            | rewrite (small_bits p n) by (auto; lia)
            | rewrite (aligned_bits p n) by (auto; lia)
            | rewrite (word_bits p n) by (auto; lia) ]
  | H : Z.testbit ?v 0 = false |- context [Z.testbit ?v ?n] =>
      replace n with 0 by lia; rewrite H
  end;
  simpl; try btauto.

Lemma getPointer_pack p i :
  is_word p -> Z.land p (Z.ones 3) = 0 -> 0 <= i < 4 ->
  Z.land (Z.lor p (Z.shiftl i PointerIntPair.IntShift))
         PointerIntPair.PointerBitMask = p.
Proof.
  intros Hw Ha Hi. rewrite PointerBitMask_eq, !IntShift_eq.
  Z.bitblast; known_bits.
Qed.

Lemma getInt_pack p i :
  Z.land p (Z.ones 3) = 0 -> 0 <= i < 4 ->
  Z.land (Z.shiftr (Z.lor p (Z.shiftl i PointerIntPair.IntShift))
                   PointerIntPair.IntShift)
         PointerIntPair.IntMask = i.
Proof.
  intros Ha Hi. rewrite IntMask_eq, !IntShift_eq.
  Z.bitblast; known_bits.
Qed.

Lemma getPointer_word P : is_word (PointerIntPair.getPointer P).
Proof.
  unfold PointerIntPair.getPointer.
  assert (E : Z.land (PointerIntPair.Value P) PointerIntPair.PointerBitMask
              = Z.land (PointerIntPair.Value P) PointerIntPair.PointerBitMask
                mod 2 ^ 64).
  { rewrite <- Z.land_ones by lia. rewrite PointerBitMask_eq. Z.bitblast. }
  unfold is_word, pointer_bits. rewrite E. apply Z.mod_pos_bound. lia.
Qed.

Lemma getPointer_aligned P :
  Z.land (PointerIntPair.getPointer P) (Z.ones 3) = 0.
Proof.
  unfold PointerIntPair.getPointer. rewrite PointerBitMask_eq. Z.bitblast.
Qed.

Lemma getInt_range P : 0 <= PointerIntPair.getInt P < 4.
Proof.
  unfold PointerIntPair.getInt. rewrite IntMask_eq, Z.land_ones by lia.
  change (2 ^ 2) with 4. apply Z.mod_pos_bound. lia.
Qed.

(** A word that keeps its spare bit zero is the pair it decodes to. *)
Lemma repack v :
  is_word v -> Z.land v (Z.ones PointerIntPair.IntShift) = 0 ->
  Z.lor (Z.land v PointerIntPair.PointerBitMask)
        (Z.shiftl (Z.land (Z.shiftr v PointerIntPair.IntShift)
                          PointerIntPair.IntMask)
                  PointerIntPair.IntShift) = v.
Proof.
  rewrite !IntShift_eq. intros Hw Hb. apply spare_bit in Hb.
  rewrite PointerBitMask_eq, IntMask_eq.
  Z.bitblast; known_bits.
Qed.

(** * What each operation computes *)

Lemma Ok_inj {A : Type} (x y : A) : Ok x = Ok y -> x = y.
Proof. intros E. injection E. auto. Qed.

Lemma flag_cases i :
  0 <= i < 4 -> i = 0 \/ i = 1 \/ i = 2 \/ i = 3.
Proof. lia. Qed.

Ltac each_flag H :=
  destruct (flag_cases _ H) as [-> | [-> | [-> | ->]]].

Lemma aligned_iff p :
  (Z.land p (Z.shiftl 1 PointerIntPair.PtrNumLowBitsAvailable - 1) =? 0) = true
  <-> Z.land p (Z.ones 3) = 0.
Proof. rewrite AlignMask_eq. apply Z.eqb_eq. Qed.

Lemma PointerIntPair_make_ok p i :
  Z.land p (Z.ones 3) = 0 -> i < 4 ->
  PointerIntPair.make p i
  = Ok {| PointerIntPair.Value := Z.lor p (Z.shiftl i PointerIntPair.IntShift) |}.
Proof.
  intros Ha Hi. unfold PointerIntPair.make.
  apply aligned_iff in Ha. rewrite Ha.
  replace (i <? Z.shiftl 1 PointerIntPair.IntBits) with true
    by (symmetry; apply Z.ltb_lt; exact Hi).
  reflexivity.
Qed.

(** Whatever [PointerIntPair.make] returns is the packed pair, and the
    pointer it was given is aligned. *)
Lemma PointerIntPair_make_inv p i v :
  PointerIntPair.make p i = Ok v ->
  Z.land p (Z.ones 3) = 0 /\ i < 4 /\
  v = {| PointerIntPair.Value := Z.lor p (Z.shiftl i PointerIntPair.IntShift) |}.
Proof.
  unfold PointerIntPair.make.
  change (PointerIntPair.IntBits <=? PointerIntPair.PtrNumLowBitsAvailable)
    with true.
  destruct (Z.land p (Z.shiftl 1 PointerIntPair.PtrNumLowBitsAvailable - 1) =? 0)
    eqn:Ha; [|discriminate].
  destruct (i <? Z.shiftl 1 PointerIntPair.IntBits) eqn:Hi; [|discriminate].
  cbv [assert bind]. intros E. injection E as <-. apply aligned_iff in Ha. apply Z.ltb_lt in Hi.
  auto.
Qed.

Lemma bool_flags_range a l :
  0 <= Z.lor (Z.shiftl (Z.b2z a) 0) (Z.shiftl (Z.b2z l) 1) < 4.
Proof. destruct a, l; (vm_compute; split; [discriminate | reflexivity]). Qed.

Lemma set_address_range i :
  0 <= i < 4 -> 0 <= Z.lor i SILType.IsAddressFlag < 4.
Proof. intros H. each_flag H; (vm_compute; split; [discriminate | reflexivity]). Qed.

Lemma clear_address_range i :
  0 <= i < 4 ->
  0 <= Z.land i (to_unsigned (Z.lnot SILType.IsAddressFlag)) < 4.
Proof. intros H. each_flag H; (vm_compute; split; [discriminate | reflexivity]). Qed.

Lemma getAddressType_eq T :
  SILType.getAddressType T
  = Ok {| SILType.value :=
            {| PointerIntPair.Value :=
                 Z.lor (PointerIntPair.getPointer (SILType.value T))
                       (Z.shiftl (Z.lor (PointerIntPair.getInt (SILType.value T))
                                        SILType.IsAddressFlag)
                                 PointerIntPair.IntShift) |} |}.
Proof.
  unfold SILType.getAddressType, SILType.of_flags.
  rewrite PointerIntPair_make_ok; [reflexivity | apply getPointer_aligned |].
  apply set_address_range, getInt_range.
Qed.

(** The guard of [getObjectType] or-s the flags with [IsLoadableFlag], so what
    it tests is never zero. *)
Lemma getObjectType_guard i :
  0 <= i < 4 -> negb (Z.lor i SILType.IsLoadableFlag =? 0) = true.
Proof. intros H. each_flag H; reflexivity. Qed.

Lemma getObjectType_eq T :
  SILType.getObjectType T
  = Ok {| SILType.value :=
            {| PointerIntPair.Value :=
                 Z.lor (PointerIntPair.getPointer (SILType.value T))
                       (Z.shiftl (Z.land (PointerIntPair.getInt (SILType.value T))
                                         (to_unsigned (Z.lnot SILType.IsAddressFlag)))
                                 PointerIntPair.IntShift) |} |}.
Proof.
  unfold SILType.getObjectType, SILType.of_flags.
  rewrite getObjectType_guard by apply getInt_range. simpl bind.
  rewrite PointerIntPair_make_ok; [reflexivity | apply getPointer_aligned |].
  apply clear_address_range, getInt_range.
Qed.

(** Decoding a packed pair. *)
Lemma getPointer_packed p i :
  is_word p -> Z.land p (Z.ones 3) = 0 -> 0 <= i < 4 ->
  PointerIntPair.getPointer
    {| PointerIntPair.Value := Z.lor p (Z.shiftl i PointerIntPair.IntShift) |} = p.
Proof. apply getPointer_pack. Qed.

Lemma getInt_packed p i :
  Z.land p (Z.ones 3) = 0 -> 0 <= i < 4 ->
  PointerIntPair.getInt
    {| PointerIntPair.Value := Z.lor p (Z.shiftl i PointerIntPair.IntShift) |} = i.
Proof. apply getInt_pack. Qed.

Lemma packed_rep_ok p i :
  is_word p -> Z.land p (Z.ones 3) = 0 -> 0 <= i < 4 ->
  rep_ok {| SILType.value :=
              {| PointerIntPair.Value :=
                   Z.lor p (Z.shiftl i PointerIntPair.IntShift) |} |}.
Proof.
  intros Hw Ha Hi. unfold rep_ok.
  cbn [SILType.value PointerIntPair.Value]. split.
  - assert (E : Z.lor p (Z.shiftl i PointerIntPair.IntShift)
                = Z.lor p (Z.shiftl i PointerIntPair.IntShift) mod 2 ^ 64).
    { rewrite <- Z.land_ones by lia. rewrite IntShift_eq.
      Z.bitblast; known_bits. }
    unfold is_word, pointer_bits. rewrite E. apply Z.mod_pos_bound. lia.
  - rewrite IntShift_eq. Z.bitblast; known_bits.
Qed.

Lemma SILType_make_ok ty a l :
  Z.land (Ty.getPointer ty) (Z.ones 3) = 0 ->
  a || l = true ->
  Ty.to_bool ty && Ty.is_LValue ty = false ->
  SILType.make ty a l = Ok (packed (Ty.getPointer ty) a l).
Proof.
  intros Hp Hf Hl. unfold SILType.make.
  rewrite PointerIntPair_make_ok by (auto; apply bool_flags_range).
  cbv [bind]. rewrite Hf, Hl. reflexivity.
Qed.

Lemma SILType_make_inv ty a l h :
  SILType.make ty a l = Ok h ->
  Z.land (Ty.getPointer ty) (Z.ones 3) = 0 /\
  a || l = true /\
  Ty.to_bool ty && Ty.is_LValue ty = false /\
  h = packed (Ty.getPointer ty) a l.
Proof.
  unfold SILType.make. intros E.
  destruct (PointerIntPair.make _ _) as [v|] eqn:Ev; [|discriminate].
  apply PointerIntPair_make_inv in Ev. destruct Ev as (Hp & _ & ->).
  cbv [bind] in E.
  destruct (a || l); [|discriminate].
  destruct (Ty.to_bool ty && Ty.is_LValue ty); [discriminate|].
  cbv [assert negb] in E. injection E as <-. auto.
Qed.

Lemma isAddress_of_int T :
  SILType.isAddress T = Z.testbit (PointerIntPair.getInt (SILType.value T)) 0.
Proof.
  unfold SILType.isAddress.
  pose proof (getInt_range (SILType.value T)) as H.
  each_flag H; reflexivity.
Qed.

Lemma isLoadable_of_int T :
  SILType.isLoadable T = Z.testbit (PointerIntPair.getInt (SILType.value T)) 1.
Proof.
  unfold SILType.isLoadable.
  pose proof (getInt_range (SILType.value T)) as H.
  each_flag H; reflexivity.
Qed.

(** The two flag readers determine the flag field. *)
Lemma getInt_of_flags T :
  PointerIntPair.getInt (SILType.value T)
  = Z.b2z (SILType.isAddress T) + 2 * Z.b2z (SILType.isLoadable T).
Proof.
  rewrite isAddress_of_int, isLoadable_of_int.
  pose proof (getInt_range (SILType.value T)) as H.
  each_flag H; reflexivity.
Qed.

Lemma packed_getPointer p a l :
  is_word p -> Z.land p (Z.ones 3) = 0 ->
  PointerIntPair.getPointer (SILType.value (packed p a l)) = p.
Proof.
  intros Hw Ha. apply getPointer_packed; auto using bool_flags_range.
Qed.

Lemma packed_getInt p a l :
  Z.land p (Z.ones 3) = 0 ->
  PointerIntPair.getInt (SILType.value (packed p a l))
  = Z.lor (Z.shiftl (Z.b2z a) 0) (Z.shiftl (Z.b2z l) 1).
Proof.
  intros Ha. apply getInt_packed; auto using bool_flags_range.
Qed.

Lemma packed_isAddress p a l :
  Z.land p (Z.ones 3) = 0 -> SILType.isAddress (packed p a l) = a.
Proof.
  intros Ha. rewrite isAddress_of_int, packed_getInt by assumption.
  destruct a, l; reflexivity.
Qed.

Lemma packed_isLoadable p a l :
  Z.land p (Z.ones 3) = 0 -> SILType.isLoadable (packed p a l) = l.
Proof.
  intros Ha. rewrite isLoadable_of_int, packed_getInt by assumption.
  destruct a, l; reflexivity.
Qed.

(** An aligned pointer and a flag field share no bit, so packing adds. *)
Lemma aligned_mod p : Z.land p (Z.ones 3) = 0 -> p mod 8 = 0.
Proof. intros H. rewrite Z.land_ones in H by lia. exact H. Qed.

Lemma packed_Value p a l :
  Z.land p (Z.ones 3) = 0 ->
  PointerIntPair.Value (SILType.value (packed p a l))
  = p + 2 * (Z.b2z a + 2 * Z.b2z l).
Proof.
  intros Ha. unfold packed. cbn [SILType.value PointerIntPair.Value].
  rewrite IntShift_eq.
  set (c := Z.shiftl (Z.lor (Z.shiftl (Z.b2z a) 0) (Z.shiftl (Z.b2z l) 1)) 1).
  assert (Hc : 0 <= c < 8 /\ c = 2 * (Z.b2z a + 2 * Z.b2z l))
    by (subst c; destruct a, l; cbn; lia).
  destruct Hc as [Hc ->]. apply Z.or_to_plus.
  apply Z.bits_inj'. intros n Hn.
  rewrite Z.land_spec, Z.testbit_0_l.
  destruct (Z.ltb_spec n 3).
  - rewrite (aligned_bits p n) by (auto; lia). reflexivity.
  - rewrite (Z.bits_above_log2 (2 * (Z.b2z a + 2 * Z.b2z l)) n);
      [apply andb_false_r | lia |].
    destruct a, l; cbn; lia.
Qed.

(** ** The representation invariant holds of every handle produced *)

Lemma default_rep_ok : rep_ok SILType.default.
Proof. split; [unfold is_word; cbn; lia | reflexivity]. Qed.

Lemma Ty_getPointer_word ty :
  match ty with Some t => allocated t | None => True end ->
  is_word (Ty.getPointer ty).
Proof.
  destruct ty as [t|]; cbn.
  - unfold allocated, is_word. lia.
  - intros _. unfold is_word. cbn. lia.
Qed.

Lemma getAddressType_rep_ok T T' :
  SILType.getAddressType T = Ok T' -> rep_ok T'.
Proof.
  rewrite getAddressType_eq. intros E. injection E as <-.
  apply packed_rep_ok;
    auto using getPointer_word, getPointer_aligned, set_address_range,
      getInt_range.
Qed.

Lemma getObjectType_rep_ok T T' :
  SILType.getObjectType T = Ok T' -> rep_ok T'.
Proof.
  rewrite getObjectType_eq. intros E. injection E as <-.
  apply packed_rep_ok;
    auto using getPointer_word, getPointer_aligned, clear_address_range,
      getInt_range.
Qed.

Lemma reachable_rep_ok T : reachable T -> rep_ok T.
Proof.
  induction 1 as [ | a l h E | t a l h Ht E | h h' _ _ E | h h' _ _ E ].
  - apply default_rep_ok.
  - apply SILType_make_inv in E. destruct E as (Hp & _ & _ & ->).
    apply packed_rep_ok; auto using bool_flags_range.
    apply (Ty_getPointer_word None). exact I.
  - apply SILType_make_inv in E. destruct E as (Hp & _ & _ & ->).
    apply packed_rep_ok; auto using bool_flags_range.
    apply (Ty_getPointer_word (Some t)). exact Ht.
  - eapply getAddressType_rep_ok; eassumption.
  - eapply getObjectType_rep_ok; eassumption.
Qed.

Lemma sentinels_rep_ok :
  rep_ok DenseMapInfo.getEmptyKey /\ rep_ok DenseMapInfo.getTombstoneKey.
Proof.
  split; (split; [unfold is_word; split; [discriminate | reflexivity]
                 | reflexivity]).
Qed.

(** ** Equality of handles *)

Lemma SILType_eqb_eq L R : SILType.eqb L R = true <-> L = R.
Proof.
  destruct L as [[x]], R as [[y]].
  unfold SILType.eqb, PointerIntPair.eqb. cbn. rewrite Z.eqb_eq.
  split; [intros ->; reflexivity | intros E; injection E; auto].
Qed.

Lemma SILType_eqb_refl T : SILType.eqb T T = true.
Proof. apply SILType_eqb_eq. reflexivity. Qed.

Lemma SILType_eqb_neq L R : SILType.eqb L R = false <-> L <> R.
Proof.
  rewrite <- SILType_eqb_eq. destruct (SILType.eqb L R); split; congruence.
Qed.

(** A handle that keeps the representation invariant is the pair of its
    pointer and its flag field. *)
Lemma rep_ok_packed T :
  rep_ok T ->
  T = {| SILType.value :=
           {| PointerIntPair.Value :=
                Z.lor (PointerIntPair.getPointer (SILType.value T))
                      (Z.shiftl (PointerIntPair.getInt (SILType.value T))
                                PointerIntPair.IntShift) |} |}.
Proof.
  destruct T as [[v]]. intros [Hw Hs]. cbn in Hw, Hs.
  unfold PointerIntPair.getPointer, PointerIntPair.getInt. cbn.
  rewrite repack by assumption. reflexivity.
Qed.

Lemma components_determine L R :
  rep_ok L -> rep_ok R ->
  SILType.getSwiftRValueType L = SILType.getSwiftRValueType R ->
  SILType.isAddress L = SILType.isAddress R ->
  SILType.isLoadable L = SILType.isLoadable R ->
  L = R.
Proof.
  intros HL HR Hp Ha Hl.
  rewrite (rep_ok_packed L HL), (rep_ok_packed R HR).
  unfold SILType.getSwiftRValueType in Hp.
  rewrite (getInt_of_flags L), (getInt_of_flags R), Hp, Ha, Hl.
  reflexivity.
Qed.

(** Handles over two type objects are told apart by where the objects live,
    whatever the objects hold. *)
Lemma handles_of_distinct_type_objects t1 t2 a l h1 h2 :
  allocated t1 -> allocated t2 ->
  addr t1 <> addr t2 ->
  SILType.getPreLoweredType (Some t1) a l = Ok h1 ->
  SILType.getPreLoweredType (Some t2) a l = Ok h2 ->
  SILType.eqb h1 h2 = false.
Proof.
  intros A1 A2 Hne E1 E2.
  apply SILType_make_inv in E1. destruct E1 as (P1 & _ & _ & ->).
  apply SILType_make_inv in E2. destruct E2 as (P2 & _ & _ & ->).
  apply SILType_eqb_neq. intros E. apply Hne.
  apply (f_equal (fun T => PointerIntPair.getPointer (SILType.value T))) in E.
  pose proof (Ty_getPointer_word (Some t1) A1) as W1.
  pose proof (Ty_getPointer_word (Some t2) A2) as W2.
  rewrite !packed_getPointer in E by assumption. exact E.
Qed.

(** ** The invariant I1 at construction and under [getAddressType] *)

Lemma constructor_establishes_I1 ty a l h :
  SILType.getPreLoweredType ty a l = Ok h ->
  SILType.isAddress h || SILType.isLoadable h = true.
Proof.
  intros E. apply SILType_make_inv in E. destruct E as (Hp & Hf & _ & ->).
  rewrite packed_isAddress, packed_isLoadable by assumption. exact Hf.
Qed.

Lemma constructor_rejects_neither ty :
  exists msg, SILType.getPreLoweredType ty false false = AssertionFailed msg.
Proof.
  destruct (SILType.getPreLoweredType ty false false) as [h|msg] eqn:E.
  - apply SILType_make_inv in E. destruct E as (_ & Hf & _). discriminate.
  - eauto.
Qed.

Lemma constructor_rejects_neither_aligned ty :
  Z.land (Ty.getPointer ty) (Z.ones 3) = 0 ->
  SILType.getPreLoweredType ty false false
  = AssertionFailed "SILType can't be the value of an address-only type".
Proof.
  intros Hp. unfold SILType.getPreLoweredType, SILType.make.
  rewrite PointerIntPair_make_ok by (auto; apply bool_flags_range).
  reflexivity.
Qed.

Lemma getAddressType_isAddress T T' :
  SILType.getAddressType T = Ok T' -> SILType.isAddress T' = true.
Proof.
  rewrite getAddressType_eq. intros E. apply Ok_inj in E. subst T'.
  rewrite isAddress_of_int. cbn [SILType.value].
  rewrite getInt_packed
    by auto using getPointer_aligned, set_address_range, getInt_range.
  pose proof (getInt_range (SILType.value T)) as H.
  each_flag H; reflexivity.
Qed.

(** The assertion of [getObjectType] fires on no handle at all. *)
Lemma getObjectType_total T : exists T', SILType.getObjectType T = Ok T'.
Proof. rewrite getObjectType_eq. eauto. Qed.

Lemma getObjectType_flags T T' :
  SILType.getObjectType T = Ok T' ->
  SILType.isAddress T' = false /\
  SILType.isLoadable T' = SILType.isLoadable T.
Proof.
  rewrite getObjectType_eq. intros E. apply Ok_inj in E. subst T'.
  rewrite isAddress_of_int, !isLoadable_of_int. cbn [SILType.value].
  rewrite getInt_packed
    by auto using getPointer_aligned, clear_address_range, getInt_range.
  pose proof (getInt_range (SILType.value T)) as H.
  each_flag H; split; reflexivity.
Qed.

(** * The properties of the specification *)

(** C1.  The specification asks that [getObjectType] fail its precondition
    on every address-only handle.  On the address handle of the address-only
    type [OpaqueStructType] (address flag set, loadable flag clear) the guard
    [(value.getInt() | IsLoadableFlag)] is non-zero, no assertion fires, and
    the call returns the handle with both flags clear. *)
Theorem getObjectType_of_address_only_returns :
  SILType.getPreLoweredType (Some OpaqueStructType) true false
  = Ok (packed 8192 true false) /\
  SILType.isAddress (packed 8192 true false) = true /\
  SILType.isLoadable (packed 8192 true false) = false /\
  SILType.getObjectType (packed 8192 true false)
  = Ok (packed 8192 false false).
Proof. repeat split; vm_compute; reflexivity. Qed.

(** C2.  The specification asks that every non-null handle reached through
    the private constructor and the two conversions be an address or
    loadable.  The constructor accepts the address handle of the address-only
    type [OpaqueStructType]; [getObjectType] returns on it a handle that is
    reachable and not null, and neither of its flags is set. *)
Theorem reachable_handle_neither_address_nor_loadable :
  SILType.getPreLoweredType (Some OpaqueStructType) true false
  = Ok (packed 8192 true false) /\
  SILType.getObjectType (packed 8192 true false)
  = Ok (packed 8192 false false) /\
  reachable (packed 8192 false false) /\
  SILType.isNull (packed 8192 false false) = false /\
  SILType.isAddress (packed 8192 false false) = false /\
  SILType.isLoadable (packed 8192 false false) = false.
Proof.
  split; [reflexivity|]. split; [reflexivity|].
  split; [|repeat split; reflexivity].
  apply reach_object with (h := packed 8192 true false).
  - apply reach_type with (t := OpaqueStructType) (a := true) (l := false).
    + unfold allocated, pointer_bits. cbn. lia.
    + reflexivity.
  - reflexivity.
Qed.

(** C3.  For every loadable, non-address handle [h], taking the address
    type and then the object type gives back a handle equal to [h].  A
    handle is a packed word that keeps the representation invariant, as every
    handle the header produces does ([reachable_rep_ok],
    [sentinels_rep_ok]). *)
Theorem address_object_round_trip h :
  rep_ok h ->
  SILType.isAddress h = false ->
  SILType.isLoadable h = true ->
  exists a o,
    SILType.getAddressType h = Ok a /\
    SILType.getObjectType a = Ok o /\
    SILType.eqb o h = true.
Proof.
  intros Hr Ha Hl.
  assert (Hi : PointerIntPair.getInt (SILType.value h) = 2)
    by (rewrite getInt_of_flags, Ha, Hl; reflexivity).
  eexists. eexists. split; [apply getAddressType_eq|].
  split; [apply getObjectType_eq|].
  apply SILType_eqb_eq. cbn [SILType.value].
  rewrite getPointer_packed, getInt_packed
    by auto using getPointer_word, getPointer_aligned, set_address_range,
         getInt_range.
  rewrite Hi. symmetry.
  etransitivity; [apply (rep_ok_packed h Hr)|].
  rewrite Hi. reflexivity.
Qed.

Lemma address_object_round_trip_witness :
  exists a o,
    SILType.getAddressType (packed 4096 false true) = Ok a /\
    SILType.getObjectType a = Ok o /\
    SILType.eqb o (packed 4096 false true) = true.
Proof.
  apply (address_object_round_trip (packed 4096 false true)).
  - split; [split; [discriminate | reflexivity] | reflexivity].
  - reflexivity.
  - reflexivity.
Defined.

(** C4, as stated, fails: the default handle and its address type are both
    null, and [operator==] tells them apart by the address flag. *)
Lemma two_null_handles_unequal :
  SILType.getAddressType SILType.default = Ok (packed 0 true false) /\
  SILType.isNull SILType.default = true /\
  SILType.isNull (packed 0 true false) = true /\
  SILType.eqb SILType.default (packed 0 true false) = false.
Proof. repeat split; vm_compute; reflexivity. Qed.

(** C4, amended.  Two handles for which [isNull()] is true compare equal
    exactly when their [isAddress()] and [isLoadable()] flags agree; a handle
    with [isNull()] true compares unequal to every handle with [isNull()]
    false.  Handles are packed words that keep the representation
    invariant. *)
Theorem null_handle_identity h1 h2 :
  rep_ok h1 -> rep_ok h2 ->
  SILType.isNull h1 = true ->
  (SILType.isNull h2 = true ->
   (SILType.eqb h1 h2 = true <->
    SILType.isAddress h1 = SILType.isAddress h2 /\
    SILType.isLoadable h1 = SILType.isLoadable h2)) /\
  (SILType.isNull h2 = false -> SILType.eqb h1 h2 = false).
Proof.
  intros H1 H2 N1. split.
  - intros N2. split.
    + intros E. apply SILType_eqb_eq in E. subst h2. auto.
    + intros [Ha Hl]. apply SILType_eqb_eq.
      apply components_determine; auto.
      unfold SILType.isNull in N1, N2. apply Z.eqb_eq in N1, N2.
      unfold SILType.getSwiftRValueType. congruence.
  - intros N2. apply SILType_eqb_neq. intros ->. congruence.
Qed.

Lemma null_handle_identity_witness :
  (SILType.isNull (packed 0 true false) = true ->
   (SILType.eqb SILType.default (packed 0 true false) = true <->
    SILType.isAddress SILType.default = SILType.isAddress (packed 0 true false) /\
    SILType.isLoadable SILType.default
    = SILType.isLoadable (packed 0 true false))) /\
  (SILType.isNull (packed 0 true false) = false ->
   SILType.eqb SILType.default (packed 0 true false) = false).
Proof.
  apply (null_handle_identity SILType.default (packed 0 true false)).
  - split; [split; [discriminate | reflexivity] | reflexivity].
  - split; [split; [discriminate | reflexivity] | reflexivity].
  - reflexivity.
Defined.

(** C5.  Exporting a handle as an opaque machine word and reconstructing it
    gives back an equal handle, with the same underlying type reference and
    the same two flags. *)
Theorem opaque_value_round_trip h :
  SILType.eqb (SILType.getFromOpaqueValue (SILType.getOpaqueValue h)) h = true /\
  SILType.getSwiftRValueType
    (SILType.getFromOpaqueValue (SILType.getOpaqueValue h))
  = SILType.getSwiftRValueType h /\
  SILType.isAddress (SILType.getFromOpaqueValue (SILType.getOpaqueValue h))
  = SILType.isAddress h /\
  SILType.isLoadable (SILType.getFromOpaqueValue (SILType.getOpaqueValue h))
  = SILType.isLoadable h.
Proof.
  assert (E : SILType.getFromOpaqueValue (SILType.getOpaqueValue h) = h)
    by (destruct h as [[v]]; reflexivity).
  rewrite E. auto using SILType_eqb_refl.
Qed.

(** C6.  The empty key and the tombstone key are different handles, and a
    handle the private constructor builds over a type object that does not
    live at either reserved sentinel reference value equals neither of
    them. *)
Theorem sentinel_disjointness :
  SILType.neqb DenseMapInfo.getEmptyKey DenseMapInfo.getTombstoneKey = true /\
  forall t a l h,
    addr t <> PointerMapInfo.getEmptyKey ->
    addr t <> PointerMapInfo.getTombstoneKey ->
    SILType.getPreLoweredType (Some t) a l = Ok h ->
    SILType.eqb h DenseMapInfo.getEmptyKey = false /\
    SILType.eqb h DenseMapInfo.getTombstoneKey = false.
Proof.
  split; [reflexivity|].
  intros t a l h He Ht E.
  apply SILType_make_inv in E. destruct E as (Hp & Hf & _ & ->).
  cbn [Ty.getPointer] in Hp.
  pose proof (packed_Value (addr t) a l Hp) as Hv. cbn [Ty.getPointer].
  apply aligned_mod in Hp.
  split; apply SILType_eqb_neq; intros E; rewrite E in Hv;
    change PointerMapInfo.getEmptyKey with 18446744073709551612 in He;
    change PointerMapInfo.getTombstoneKey with 18446744073709551608 in Ht;
    destruct a, l; try discriminate Hf; cbn in Hv;
    Z.div_mod_to_equations; lia.
Qed.

Lemma sentinel_disjointness_witness :
  SILType.eqb (packed 4096 false true) DenseMapInfo.getEmptyKey = false /\
  SILType.eqb (packed 4096 false true) DenseMapInfo.getTombstoneKey = false.
Proof.
  apply (proj2 sentinel_disjointness Int32Type false true).
  - discriminate.
  - discriminate.
  - reflexivity.
Defined.

(** C7.  Two handles compare equal under [operator==] exactly when their
    packed words are identical, and their packed words are identical exactly
    when they agree on the underlying type reference, on [isAddress()] and on
    [isLoadable()]; [operator!=] is the negation.  The comparison reads only
    the packed words, never the type objects.  Handles are packed words that
    keep the representation invariant, as every handle the header produces
    does ([reachable_rep_ok], [sentinels_rep_ok]). *)
Theorem equality_is_packed_identity h1 h2 :
  rep_ok h1 -> rep_ok h2 ->
  (SILType.eqb h1 h2 = true <->
   SILType.getOpaqueValue h1 = SILType.getOpaqueValue h2) /\
  (SILType.getOpaqueValue h1 = SILType.getOpaqueValue h2 <->
   SILType.getSwiftRValueType h1 = SILType.getSwiftRValueType h2 /\
   SILType.isAddress h1 = SILType.isAddress h2 /\
   SILType.isLoadable h1 = SILType.isLoadable h2) /\
  SILType.neqb h1 h2 = negb (SILType.eqb h1 h2).
Proof.
  intros H1 H2. split; [|split].
  - apply Z.eqb_eq.
  - split.
    + intros E.
      assert (h1 = h2) as ->
        by (destruct h1 as [[x]], h2 as [[y]]; cbn in E; congruence).
      auto.
    + intros (Hp & Ha & Hl).
      rewrite (components_determine h1 h2); auto.
  - reflexivity.
Qed.

Lemma equality_is_packed_identity_witness :
  (SILType.eqb (packed 4096 false true) (packed 4096 true true) = true <->
   SILType.getOpaqueValue (packed 4096 false true)
   = SILType.getOpaqueValue (packed 4096 true true)) /\
  (SILType.getOpaqueValue (packed 4096 false true)
   = SILType.getOpaqueValue (packed 4096 true true) <->
   SILType.getSwiftRValueType (packed 4096 false true)
   = SILType.getSwiftRValueType (packed 4096 true true) /\
   SILType.isAddress (packed 4096 false true)
   = SILType.isAddress (packed 4096 true true) /\
   SILType.isLoadable (packed 4096 false true)
   = SILType.isLoadable (packed 4096 true true)) /\
  SILType.neqb (packed 4096 false true) (packed 4096 true true)
  = negb (SILType.eqb (packed 4096 false true) (packed 4096 true true)).
Proof.
  apply (equality_is_packed_identity (packed 4096 false true)
                                     (packed 4096 true true)).
  - split; [split; [discriminate | reflexivity] | reflexivity].
  - split; [split; [discriminate | reflexivity] | reflexivity].
Defined.

(** C8.  [getAddressType()] returns a handle with [isAddress()] true and the
    underlying type and [isLoadable()] of the handle it was called on, and
    calling it on its own result returns an equal handle. *)
Theorem getAddressType_idempotent h :
  exists a a',
    SILType.getAddressType h = Ok a /\
    SILType.getAddressType a = Ok a' /\
    SILType.eqb a' a = true /\
    SILType.isAddress a = true /\
    SILType.getSwiftRValueType a = SILType.getSwiftRValueType h /\
    SILType.isLoadable a = SILType.isLoadable h.
Proof.
  pose proof (getInt_range (SILType.value h)) as Hi.
  pose proof (set_address_range _ Hi) as Hi'.
  eexists. eexists. split; [apply getAddressType_eq|].
  split; [apply getAddressType_eq|].
  unfold SILType.getSwiftRValueType.
  rewrite isAddress_of_int, !isLoadable_of_int. cbn [SILType.value].
  rewrite getPointer_packed, getInt_packed
    by auto using getPointer_word, getPointer_aligned.
  split; [apply SILType_eqb_eq|]; each_flag Hi; auto.
Qed.

(** C9.  The private constructor produces no handle over a non-null type
    that is an [LValueType], whatever the flags: an assertion fires, and when
    the pointer is aligned and one of the flags is set it is the one about
    LValueTypes. *)
Theorem LValueType_rejected t a l :
  addr t <> 0 ->
  is_LValueType t = true ->
  (exists msg,
      SILType.getPreLoweredType (Some t) a l = AssertionFailed msg) /\
  (Z.land (addr t) (Z.ones 3) = 0 -> a || l = true ->
   SILType.getPreLoweredType (Some t) a l
   = AssertionFailed "LValueTypes should be eliminated by SIL lowering").
Proof.
  intros Hn Hl.
  assert (Hg : Ty.to_bool (Some t) && Ty.is_LValue (Some t) = true).
  { unfold Ty.to_bool. cbn [Ty.getPointer Ty.is_LValue]. rewrite Hl.
    apply Z.eqb_neq in Hn. rewrite Hn. reflexivity. }
  split.
  - destruct (SILType.getPreLoweredType (Some t) a l) as [h|msg] eqn:E.
    + apply SILType_make_inv in E. destruct E as (_ & _ & Hg' & _). congruence.
    + eauto.
  - intros Hp Hf. unfold SILType.getPreLoweredType, SILType.make.
    rewrite PointerIntPair_make_ok by (auto; apply bool_flags_range).
    cbv [bind]. rewrite Hf, Hg. reflexivity.
Qed.

Lemma LValueType_rejected_witness :
  (exists msg,
      SILType.getPreLoweredType (Some LValueOfInt32) true true
      = AssertionFailed msg) /\
  (Z.land (addr LValueOfInt32) (Z.ones 3) = 0 -> true || true = true ->
   SILType.getPreLoweredType (Some LValueOfInt32) true true
   = AssertionFailed "LValueTypes should be eliminated by SIL lowering").
Proof.
  apply (LValueType_rejected LValueOfInt32 true true).
  - discriminate.
  - reflexivity.
Defined.

(** C10.  On every handle, the null one included, [getAddressType()] and
    [getObjectType()] return a handle over the same underlying type
    reference: [isNull()] and [getSwiftRValueType()] answer the same before
    and after either conversion. *)
Theorem conversions_keep_underlying_type h :
  exists a o,
    SILType.getAddressType h = Ok a /\
    SILType.getObjectType h = Ok o /\
    SILType.isNull a = SILType.isNull h /\
    SILType.isNull o = SILType.isNull h /\
    SILType.getSwiftRValueType a = SILType.getSwiftRValueType h /\
    SILType.getSwiftRValueType o = SILType.getSwiftRValueType h.
Proof.
  pose proof (getInt_range (SILType.value h)) as Hi.
  eexists. eexists. split; [apply getAddressType_eq|].
  split; [apply getObjectType_eq|].
  unfold SILType.isNull, SILType.getSwiftRValueType. cbn [SILType.value].
  rewrite !getPointer_packed
    by auto using getPointer_word, getPointer_aligned, set_address_range,
         clear_address_range.
  auto.
Qed.

(** * Further properties of the header *)

(** ** The private constructor *)

(** X1.  Over an aligned type pointer, null included, the private
    constructor returns a handle exactly when one of the two flags is set
    and the type is null or not an [LValueType]. *)
Theorem constructor_succeeds_iff ty a l :
  Z.land (Ty.getPointer ty) (Z.ones 3) = 0 ->
  (exists h, SILType.getPreLoweredType ty a l = Ok h) <->
  a || l = true /\ Ty.to_bool ty && Ty.is_LValue ty = false.
Proof.
  intros Hp. split.
  - intros [h E]. apply SILType_make_inv in E. tauto.
  - intros [Hf Hl]. eexists. apply SILType_make_ok; assumption.
Qed.

Lemma constructor_succeeds_iff_witness :
  (exists h, SILType.getPreLoweredType None true false = Ok h) <->
  true || false = true /\ Ty.to_bool None && Ty.is_LValue None = false.
Proof.
  apply (constructor_succeeds_iff None true false). reflexivity.
Defined.

(** X2.  A handle the private constructor returns reads back what it was
    built from: the type pointer, whether it is null, and the two flags;
    [isAddressOnly()] is the negation of the loadable flag. *)
Theorem constructor_decode ty a l h :
  is_word (Ty.getPointer ty) ->
  SILType.getPreLoweredType ty a l = Ok h ->
  SILType.getSwiftRValueType h = Ty.getPointer ty /\
  SILType.isNull h = negb (Ty.to_bool ty) /\
  SILType.to_bool h = Ty.to_bool ty /\
  SILType.isAddress h = a /\
  SILType.isLoadable h = l /\
  SILType.isAddressOnly h = negb l.
Proof.
  intros Hw E. apply SILType_make_inv in E. destruct E as (Hp & _ & _ & ->).
  unfold SILType.getSwiftRValueType, SILType.isNull, SILType.to_bool,
    SILType.isAddressOnly, Ty.to_bool.
  rewrite packed_getPointer, packed_isAddress, packed_isLoadable
    by assumption.
  rewrite negb_involutive. auto 7.
Qed.

Lemma constructor_decode_witness :
  SILType.getSwiftRValueType (packed 8192 true false)
  = Ty.getPointer (Some OpaqueStructType) /\
  SILType.isNull (packed 8192 true false)
  = negb (Ty.to_bool (Some OpaqueStructType)) /\
  SILType.to_bool (packed 8192 true false)
  = Ty.to_bool (Some OpaqueStructType) /\
  SILType.isAddress (packed 8192 true false) = true /\
  SILType.isLoadable (packed 8192 true false) = false /\
  SILType.isAddressOnly (packed 8192 true false) = negb false.
Proof.
  apply (constructor_decode (Some OpaqueStructType) true false).
  - split; [discriminate | reflexivity].
  - reflexivity.
Defined.

(** X3.  The private constructor is injective: two handles it returns
    compare equal exactly when they were built from the same type pointer
    and the same two flags. *)
Theorem constructor_injective ty1 a1 l1 h1 ty2 a2 l2 h2 :
  is_word (Ty.getPointer ty1) -> is_word (Ty.getPointer ty2) ->
  SILType.getPreLoweredType ty1 a1 l1 = Ok h1 ->
  SILType.getPreLoweredType ty2 a2 l2 = Ok h2 ->
  SILType.eqb h1 h2 = true <->
  Ty.getPointer ty1 = Ty.getPointer ty2 /\ a1 = a2 /\ l1 = l2.
Proof.
  intros W1 W2 E1 E2.
  apply SILType_make_inv in E1. destruct E1 as (P1 & _ & _ & ->).
  apply SILType_make_inv in E2. destruct E2 as (P2 & _ & _ & ->).
  rewrite SILType_eqb_eq. split.
  - intros E.
    pose proof (f_equal (fun T => PointerIntPair.getPointer (SILType.value T)) E)
      as Ep.
    pose proof (f_equal SILType.isAddress E) as Ea.
    pose proof (f_equal SILType.isLoadable E) as El.
    cbv beta in Ep.
    rewrite !packed_getPointer in Ep by assumption.
    rewrite !packed_isAddress in Ea by assumption.
    rewrite !packed_isLoadable in El by assumption.
    auto.
  - intros (-> & -> & ->). reflexivity.
Qed.

Lemma constructor_injective_witness :
  SILType.eqb (packed 4096 false true) (packed 8192 false true) = true <->
  Ty.getPointer (Some Int32Type) = Ty.getPointer (Some OpaqueStructType) /\
  false = false /\ true = true.
Proof.
  apply (constructor_injective (Some Int32Type) false true
           (packed 4096 false true)
           (Some OpaqueStructType) false true (packed 8192 false true)).
  - split; [discriminate | reflexivity].
  - split; [discriminate | reflexivity].
  - reflexivity.
  - reflexivity.
Defined.

(** ** The two conversions *)

Lemma getAddressType_components T T' :
  SILType.getAddressType T = Ok T' ->
  PointerIntPair.getPointer (SILType.value T')
  = PointerIntPair.getPointer (SILType.value T) /\
  PointerIntPair.getInt (SILType.value T')
  = Z.lor (PointerIntPair.getInt (SILType.value T)) SILType.IsAddressFlag.
Proof.
  rewrite getAddressType_eq. intros E. apply Ok_inj in E. subst T'.
  cbn [SILType.value].
  rewrite getPointer_packed, getInt_packed
    by auto using getPointer_word, getPointer_aligned, set_address_range,
         getInt_range.
  auto.
Qed.

Lemma getObjectType_components T T' :
  SILType.getObjectType T = Ok T' ->
  PointerIntPair.getPointer (SILType.value T')
  = PointerIntPair.getPointer (SILType.value T) /\
  PointerIntPair.getInt (SILType.value T')
  = Z.land (PointerIntPair.getInt (SILType.value T))
           (to_unsigned (Z.lnot SILType.IsAddressFlag)).
Proof.
  rewrite getObjectType_eq. intros E. apply Ok_inj in E. subst T'.
  cbn [SILType.value].
  rewrite getPointer_packed, getInt_packed
    by auto using getPointer_word, getPointer_aligned, clear_address_range,
         getInt_range.
  auto.
Qed.

(** Two handles that keep the representation invariant and agree on the
    pointer and the flag field are the same handle. *)
Lemma fields_determine L R :
  rep_ok L -> rep_ok R ->
  PointerIntPair.getPointer (SILType.value L)
  = PointerIntPair.getPointer (SILType.value R) ->
  PointerIntPair.getInt (SILType.value L)
  = PointerIntPair.getInt (SILType.value R) ->
  L = R.
Proof.
  intros HL HR Hp Hi.
  rewrite (rep_ok_packed L HL), (rep_ok_packed R HR), Hp, Hi. reflexivity.
Qed.

(** X4.  [getObjectType()] returns on every handle; its result is not an
    address and has the [isLoadable()] of the handle it was called on, so it
    is an address or loadable exactly when that handle was loadable; calling
    it on its own result returns an equal handle. *)
Theorem getObjectType_idempotent h :
  exists o o',
    SILType.getObjectType h = Ok o /\
    SILType.getObjectType o = Ok o' /\
    SILType.eqb o' o = true /\
    SILType.isAddress o = false /\
    SILType.isLoadable o = SILType.isLoadable h /\
    SILType.isAddress o || SILType.isLoadable o = SILType.isLoadable h.
Proof.
  destruct (getObjectType_total h) as [o Eo].
  destruct (getObjectType_total o) as [o' Eo'].
  exists o, o'. split; [exact Eo|]. split; [exact Eo'|].
  destruct (getObjectType_flags _ _ Eo) as [Ha Hl].
  rewrite Ha, Hl. repeat split; auto.
  apply SILType_eqb_eq.
  destruct (getObjectType_components _ _ Eo) as [Hp Hi].
  destruct (getObjectType_components _ _ Eo') as [Hp' Hi'].
  apply fields_determine; eauto using getObjectType_rep_ok.
  rewrite Hi', Hi.
  pose proof (getInt_range (SILType.value h)) as H.
  each_flag H; reflexivity.
Qed.

(** X5.  The later conversion wins: the object type of an address type is
    the object type, and the address type of an object type is the address
    type, on every handle. *)
Theorem conversions_absorb h :
  exists a o ao oa,
    SILType.getAddressType h = Ok a /\
    SILType.getObjectType h = Ok o /\
    SILType.getObjectType a = Ok ao /\
    SILType.getAddressType o = Ok oa /\
    SILType.eqb ao o = true /\
    SILType.eqb oa a = true.
Proof.
  pose proof (getAddressType_eq h) as Ea.
  destruct (getObjectType_total h) as [o Eo].
  set (a := {| SILType.value := _ |}) in Ea.
  destruct (getObjectType_total a) as [ao Eao].
  pose proof (getAddressType_eq o) as Eoa.
  set (oa := {| SILType.value := _ |}) in Eoa.
  exists a, o, ao, oa. repeat (split; [assumption|]).
  destruct (getAddressType_components _ _ Ea) as [Pa Ia].
  destruct (getObjectType_components _ _ Eo) as [Po Io].
  destruct (getObjectType_components _ _ Eao) as [Pao Iao].
  destruct (getAddressType_components _ _ Eoa) as [Poa Ioa].
  pose proof (getInt_range (SILType.value h)) as H.
  split; apply SILType_eqb_eq; apply fields_determine;
    eauto using getObjectType_rep_ok, getAddressType_rep_ok; try congruence.
  - rewrite Iao, Ia, Io. each_flag H; reflexivity.
  - rewrite Ioa, Ia, Io. each_flag H; reflexivity.
Qed.

(** X6.  As the comments of the two conversions say: [getAddressType()]
    returns the handle itself when it is already an address, and
    [getObjectType()] returns the handle itself when it is not an address. *)
Theorem conversion_fixed_points h :
  rep_ok h ->
  (SILType.isAddress h = true -> SILType.getAddressType h = Ok h) /\
  (SILType.isAddress h = false -> SILType.getObjectType h = Ok h).
Proof.
  intros Hr.
  pose proof (getInt_range (SILType.value h)) as H.
  split; intros Ha; rewrite isAddress_of_int in Ha.
  - pose proof (getAddressType_eq h) as E.
    set (a := {| SILType.value := _ |}) in E. rewrite E. f_equal.
    destruct (getAddressType_components _ _ E) as [Pa Ia].
    apply fields_determine; eauto using getAddressType_rep_ok.
    rewrite Ia. revert Ha. each_flag H; intros Ha; try discriminate Ha;
      reflexivity.
  - destruct (getObjectType_total h) as [o E]. rewrite E. f_equal.
    destruct (getObjectType_components _ _ E) as [Po Io].
    apply fields_determine; eauto using getObjectType_rep_ok.
    rewrite Io. revert Ha. each_flag H; intros Ha; try discriminate Ha;
      reflexivity.
Qed.

Lemma conversion_fixed_points_witness :
  (SILType.isAddress (packed 4096 true true) = true ->
   SILType.getAddressType (packed 4096 true true)
   = Ok (packed 4096 true true)) /\
  (SILType.isAddress (packed 4096 true true) = false ->
   SILType.getObjectType (packed 4096 true true)
   = Ok (packed 4096 true true)).
Proof.
  apply (conversion_fixed_points (packed 4096 true true)).
  split; [split; [discriminate | reflexivity] | reflexivity].
Defined.

(** X7.  For every address handle [h] of a loadable type, taking the object
    type and then the address type gives back a handle equal to [h]. *)
Theorem object_address_round_trip h :
  rep_ok h ->
  SILType.isAddress h = true ->
  SILType.isLoadable h = true ->
  exists o a,
    SILType.getObjectType h = Ok o /\
    SILType.getAddressType o = Ok a /\
    SILType.eqb a h = true.
Proof.
  intros Hr Ha Hl.
  assert (Hi : PointerIntPair.getInt (SILType.value h) = 3)
    by (rewrite getInt_of_flags, Ha, Hl; reflexivity).
  destruct (getObjectType_total h) as [o Eo].
  pose proof (getAddressType_eq o) as Ea.
  set (a := {| SILType.value := _ |}) in Ea.
  exists o, a. split; [exact Eo|]. split; [exact Ea|].
  destruct (getObjectType_components _ _ Eo) as [Po Io].
  destruct (getAddressType_components _ _ Ea) as [Pa Ia].
  apply SILType_eqb_eq. apply fields_determine;
    eauto using getAddressType_rep_ok; try congruence.
  rewrite Ia, Io, Hi. reflexivity.
Qed.

Lemma object_address_round_trip_witness :
  exists o a,
    SILType.getObjectType (packed 4096 true true) = Ok o /\
    SILType.getAddressType o = Ok a /\
    SILType.eqb a (packed 4096 true true) = true.
Proof.
  apply (object_address_round_trip (packed 4096 true true)).
  - split; [split; [discriminate | reflexivity] | reflexivity].
  - reflexivity.
  - reflexivity.
Defined.

(** ** The spare low bit *)

(** X8.  The opaque pointer of every handle the header produces has its
    [NumLowBitsAvailable] = 1 lowest bit clear, and no more than that can be
    promised: the bit above it is set in the opaque pointer of a handle the
    header produces. *)
Theorem low_bit_available :
  (forall h,
      reachable h ->
      Z.land (PointerLikeTypeTraits.getAsVoidPointer h)
             (Z.ones SILType.NumLowBitsAvailable) = 0) /\
  (exists h,
      reachable h /\
      Z.land (PointerLikeTypeTraits.getAsVoidPointer h)
             (Z.ones (SILType.NumLowBitsAvailable + 1)) <> 0).
Proof.
  split.
  - intros h Hr. apply reachable_rep_ok in Hr. destruct Hr as [_ Hs].
    exact Hs.
  - exists (packed 0 true false). split; [|discriminate].
    apply reach_address with (h := SILType.default);
      [apply reach_default | reflexivity].
Qed.

Lemma low_bit_available_witness :
  Z.land (PointerLikeTypeTraits.getAsVoidPointer (packed 4096 true true))
         (Z.ones SILType.NumLowBitsAvailable) = 0.
Proof.
  apply (proj1 low_bit_available (packed 4096 true true)).
  apply reach_type with (t := Int32Type) (a := true) (l := true).
  - split; [reflexivity | reflexivity].
  - reflexivity.
Defined.

(** ** The invariant when [getObjectType] is used as documented *)

Lemma well_used_I1_or_default h :
  well_used h ->
  SILType.isAddress h || SILType.isLoadable h = true \/ h = SILType.default.
Proof.
  induction 1 as [ | a l h E | t a l h _ E | h h' _ _ E | h h' _ _ Hl E ].
  - right. reflexivity.
  - left. eapply constructor_establishes_I1; eassumption.
  - left. eapply constructor_establishes_I1; eassumption.
  - left. rewrite (getAddressType_isAddress _ _ E). reflexivity.
  - left. destruct (getObjectType_flags _ _ E) as [_ Hl'].
    rewrite Hl', Hl. apply orb_true_r.
Qed.

(** X9.  As long as [getObjectType()] is only called on handles of loadable
    types, every non-null handle obtained from the default handle, the
    private constructor and the two conversions is an address or
    loadable. *)
Theorem well_used_keeps_I1 h :
  well_used h ->
  SILType.isNull h = false ->
  SILType.isAddress h || SILType.isLoadable h = true.
Proof.
  intros Hu Hn. destruct (well_used_I1_or_default h Hu) as [H | ->].
  - exact H.
  - discriminate Hn.
Qed.

Lemma well_used_keeps_I1_witness :
  SILType.isAddress (packed 4096 false true)
  || SILType.isLoadable (packed 4096 false true) = true.
Proof.
  apply (well_used_keeps_I1 (packed 4096 false true)).
  - apply used_object with (h := packed 4096 true true).
    + apply used_type with (t := Int32Type) (a := true) (l := true).
      * split; [reflexivity | reflexivity].
      * reflexivity.
    + reflexivity.
    + reflexivity.
  - reflexivity.
Defined.

(** ** Handles as keys of a DenseMap *)



Lemma reachable_over_pointer registry h :
  (forall t, registry t -> allocated t) ->
  reachable_over registry h ->
  SILType.getSwiftRValueType h = 0 \/
  exists t, registry t /\ SILType.getSwiftRValueType h = addr t.
Proof.
  intros Hreg. unfold SILType.getSwiftRValueType.
  induction 1 as [ | a l h E | t a l h Ht E | h h' _ IH E | h h' _ IH E ].
  - left. reflexivity.
  - left. apply SILType_make_inv in E. destruct E as (Hp & _ & _ & ->).
    apply packed_getPointer; [|exact Hp].
    apply (Ty_getPointer_word None). exact I.
  - right. exists t. split; [exact Ht|].
    apply SILType_make_inv in E. destruct E as (Hp & _ & _ & ->).
    apply packed_getPointer; [|exact Hp].
    apply (Ty_getPointer_word (Some t)). auto.
  - destruct (getAddressType_components _ _ E) as [-> _]. exact IH.
  - destruct (getObjectType_components _ _ E) as [-> _]. exact IH.
Qed.

(** X11.  When no type object of the registry lives at a reserved sentinel
    reference value, no handle obtained from the default handle, the private
    constructor over the registry and the two conversions equals the empty
    key or the tombstone key. *)
Theorem sentinels_unreachable registry h :
  (forall t, registry t ->
             allocated t /\
             addr t <> PointerMapInfo.getEmptyKey /\
             addr t <> PointerMapInfo.getTombstoneKey) ->
  reachable_over registry h ->
  SILType.eqb h DenseMapInfo.getEmptyKey = false /\
  SILType.eqb h DenseMapInfo.getTombstoneKey = false.
Proof.
  intros Hreg Hr.
  assert (Hp : SILType.getSwiftRValueType h <> PointerMapInfo.getTombstoneKey).
  { destruct (reachable_over_pointer registry h) as [-> | (t & Ht & ->)];
      [intros t Ht; apply Hreg; exact Ht | exact Hr | discriminate |].
    apply Hreg. exact Ht. }
  split; apply SILType_eqb_neq; intros ->; apply Hp; reflexivity.
Qed.

Lemma sentinels_unreachable_witness :
  SILType.eqb (packed 4096 true true) DenseMapInfo.getEmptyKey = false /\
  SILType.eqb (packed 4096 true true) DenseMapInfo.getTombstoneKey = false.
Proof.
  apply (sentinels_unreachable (fun t => t = Int32Type)
           (packed 4096 true true)).
  - intros t ->. split; [split; reflexivity|]. split; discriminate.
  - apply over_type with (t := Int32Type) (a := true) (l := true);
      reflexivity.
Defined.
